(** * caret_analyze.value_objects.node

    A shallow embedding of [NodeValue] and [NodeStructValue]
    (src/caret_analyze/value_objects/node.py) and the properties of their
    read-only surface.

    Python tuples are lists, [Optional[T]] is [option T], [str] is
    [string].  A method is a computation over the instance it is called
    on: it receives [self], returns a value or raises, and hands back the
    instance, so that what a call leaves behind is part of the model. *)

From Stdlib Require Import String List Bool Arith Lia.
Import ListNotations.

Local Open Scope string_scope.
Local Open Scope list_scope.

(** ** Exceptions and method computations *)

(** The exceptions that can occur in node.py: [ItemNotFoundError]
    (caret_analyze.exceptions) and Python's built-in [TypeError], raised
    when [None] is iterated. *)
Inductive exn : Type :=
| ItemNotFoundError (msg : string)
| TypeError (msg : string).

Inductive result (A : Type) : Type :=
| Ok (a : A)
| Raise (e : exn).

Arguments Ok {A} a.
Arguments Raise {A} e.

(** A method body run on an instance of class [S]. *)
Definition M (S A : Type) : Type := S -> result A * S.

Definition ret {S A : Type} (a : A) : M S A := fun self => (Ok a, self).

Definition bind {S A B : Type} (m : M S A) (k : A -> M S B) : M S B :=
  fun self =>
    match m self with
    | (Ok a, self') => k a self'
    | (Raise e, self') => (Raise e, self')
    end.

(** [self.attr] *)
Definition read {S A : Type} (attr : S -> A) : M S A :=
  fun self => (Ok (attr self), self).

(** [raise e] *)
Definition raise {S A : Type} (e : exn) : M S A := fun self => (Raise e, self).

(** [try: body  except ItemNotFoundError: handler]; any other exception
    propagates. *)
Definition try_except_ItemNotFoundError {S A : Type}
    (body handler : M S A) : M S A :=
  fun self =>
    match body self with
    | (Raise (ItemNotFoundError _), self') => handler self'
    | r => r
    end.

(** A pure call that may raise, made from inside a method. *)
Definition lift {S A : Type} (r : result A) : M S A := fun self => (r, self).

Notation "x <- m ;; k" := (bind m (fun x => k))
  (at level 61, m at next level, right associativity).

(** The value a call returns (or the exception it raises), and the
    instance after the call. *)
Definition eval {S A : Type} (m : M S A) (self : S) : result A := fst (m self).
Definition exec {S A : Type} (m : M S A) (self : S) : S := snd (m self).

(** [for x in o] over an [Optional] tuple: iterating [None] is a
    [TypeError]. *)
Definition iter {S A : Type} (o : option (list A)) : M S (list A) :=
  match o with
  | Some l => ret l
  | None => raise (TypeError "'NoneType' object is not iterable")
  end.

(** Python's [needle in haystack] on [str]. *)
Fixpoint contains (needle haystack : string) : bool :=
  prefix needle haystack
  || match haystack with
     | EmptyString => false
     | String _ rest => contains needle rest
     end.

(** ** Interfaces of the value objects declared in sibling modules

    node.py only reads [topic_name] of publishers and subscriptions,
    [callback_name] of callbacks, and [callbacks] and
    [callback_group_name] of callback groups; the classes themselves are
    parameters. *)
Class HasTopicName (A : Type) : Type := topic_name : A -> string.

Class HasCallbackName (A : Type) : Type := callback_name : A -> string.

Class IsCallbackGroup (G C : Type) : Type := {
  cbg_callbacks : G -> list C;
  callback_group_name : G -> string
}.

(** ** caret_analyze.common.Util *)
Module Util.

(** Modelled from the spec: [Util.flatten] is defined in
    caret_analyze/common, not in node.py.  Spec section 3: the flattening of all
    groups' sequences in group order, then within-group order. *)
Fixpoint flatten {A : Type} (x : list (list A)) : list A :=
  match x with
  | [] => []
  | xs :: rest => xs ++ flatten rest
  end.

(** Modelled from the spec: [Util.find_one] is defined in
    caret_analyze/common, not in node.py.  Spec section 4.2: scans the
    collection; zero matches fail with a NotFound condition; with
    several matches the first encountered match in declared order is
    returned.  The text of the condition raised here is not given by the
    spec; both callers in node.py replace it. *)
Fixpoint find_one {A : Type} (condition : A -> bool) (items : list A)
  : result A :=
  match items with
  | [] => Raise (ItemNotFoundError "item not found")
  | x :: rest => if condition x then Ok x else find_one condition rest
  end.

End Util.

(** ** caret_analyze.value_objects.value_object.ValueObject *)

(** An instance of a class with state [A] living at address [py_id]
    (what Python's [id] returns and [is] compares). *)
Record instance (A : Type) : Type := {
  py_id : nat;
  py_state : A
}.

Arguments py_id {A} i.
Arguments py_state {A} i.

Definition py_is {A : Type} (a b : instance A) : bool :=
  Nat.eqb (py_id a) (py_id b).

(** ** NodeValue *)
Module NodeValue.

Record t : Type := {
  _NodeValue__node_name : string;
  _NodeValue__node_id : option string
}.

Definition __init__ (node_name : string) (node_id : option string) : t :=
  {| _NodeValue__node_name := node_name;
     _NodeValue__node_id := node_id |}.

Definition node_name : M t string := read _NodeValue__node_name.

Definition node_id : M t (option string) := read _NodeValue__node_id.

(** [==] on [Optional[str]]. *)
Definition eqb_option_str (a b : option string) : bool :=
  match a, b with
  | None, None => true
  | Some x, Some y => String.eqb x y
  | _, _ => false
  end.

(** Modelled from the spec: [ValueObject.__eq__] is defined in
    value_object.py, not in node.py.  Spec sections 3 and 4.1: equality is
    structural, field-wise over the two accessors [node_name] and
    [node_id]; a raising accessor makes the comparison raise. *)
Definition __eq__ (right : t) : M t bool :=
  n <- node_name ;;
  i <- node_id ;;
  n' <- lift (eval node_name right) ;;
  i' <- lift (eval node_id right) ;;
  ret (String.eqb n n' && eqb_option_str i i').

(** [a == b] on two instances: [a.__eq__(b)]. *)
Definition py_eq (a b : instance t) : result bool :=
  eval (__eq__ (py_state b)) (py_state a).

End NodeValue.

(** ** NodeStructValue *)
Module NodeStructValue.

Section Methods.

Context {PublisherStructValue SubscriptionStructValue NodePathStructValue
         CallbackGroupStructValue CallbackStructValue
         VariablePassingStructValue MessageContext : Type}.
Context `{HasTopicName PublisherStructValue}
        `{HasTopicName SubscriptionStructValue}
        `{HasCallbackName CallbackStructValue}
        `{IsCallbackGroup CallbackGroupStructValue CallbackStructValue}.

(** The attributes [__init__] sets. *)
Record t : Type := {
  _node_name : string;
  _publishers : list PublisherStructValue;
  _subscriptions : list SubscriptionStructValue;
  _callback_groups : option (list CallbackGroupStructValue);
  _node_path_values : list NodePathStructValue;
  _variable_passings_info : option (list VariablePassingStructValue);
  _message_contexts : list MessageContext
}.

Definition __init__
    (node_name : string)
    (publisher_values : list PublisherStructValue)
    (subscriptions_info : list SubscriptionStructValue)
    (node_path_values : list NodePathStructValue)
    (callback_group_values : option (list CallbackGroupStructValue))
    (variable_passing_values : option (list VariablePassingStructValue))
    (message_contexts : list MessageContext) : t :=
  {| _node_name := node_name;
     _publishers := publisher_values;
     _subscriptions := subscriptions_info;
     _callback_groups := callback_group_values;
     _node_path_values := node_path_values;
     _variable_passings_info := variable_passing_values;
     _message_contexts := message_contexts |}.

Definition node_name : M t string := read _node_name.

Definition publisher : M t (list PublisherStructValue) := read _publishers.

Definition publish_topic_names : M t (list string) :=
  ps <- read _publishers ;;
  ret (map topic_name ps).

Definition subscribe_topic_names : M t (list string) :=
  ss <- read _subscriptions ;;
  ret (map topic_name ss).

Definition subscription_values : M t (list SubscriptionStructValue) :=
  read _subscriptions.

Definition callbacks : M t (option (list CallbackStructValue)) :=
  g <- read _callback_groups ;;
  match g with
  | None => ret None
  | Some _ =>
      g' <- read _callback_groups ;;
      cbgs <- iter g' ;;
      ret (Some (Util.flatten (map cbg_callbacks cbgs)))
  end.

Definition callback_names : M t (option (list string)) :=
  c <- callbacks ;;
  match c with
  | None => ret None
  | Some _ =>
      c' <- callbacks ;;
      cbs <- iter c' ;;
      ret (Some (map callback_name cbs))
  end.

Definition callback_groups : M t (option (list CallbackGroupStructValue)) :=
  read _callback_groups.

Definition callback_group_names : M t (option (list string)) :=
  g <- callback_groups ;;
  match g with
  | None => ret None
  | Some _ =>
      g' <- callback_groups ;;
      cbgs <- iter g' ;;
      ret (Some (map callback_group_name cbgs))
  end.

Definition paths : M t (list NodePathStructValue) := read _node_path_values.

Definition variable_passings
  : M t (option (list VariablePassingStructValue)) :=
  read _variable_passings_info.

Definition message_contexts : M t (list MessageContext) :=
  read _message_contexts.

Definition get_subscription (subscribe_topic_name : string)
  : M t SubscriptionStructValue :=
  try_except_ItemNotFoundError
    (ss <- read _subscriptions ;;
     lift (Util.find_one
             (fun x => String.eqb (topic_name x) subscribe_topic_name) ss))
    (let msg := "Failed to find subscription info. " in
     let msg := String.append msg
                  (String.append "topic_name: " subscribe_topic_name) in
     raise (ItemNotFoundError msg)).

Definition get_publisher (publish_topic_name : string)
  : M t PublisherStructValue :=
  try_except_ItemNotFoundError
    (ps <- read _publishers ;;
     lift (Util.find_one
             (fun x => String.eqb (topic_name x) publish_topic_name) ps))
    (let msg := "Failed to find publisher info. " in
     let msg := String.append msg
                  (String.append "topic_name: " publish_topic_name) in
     raise (ItemNotFoundError msg)).

(** The properties of the class, by name, with the type each returns. *)
Inductive accessor : Type :=
| Anode_name
| Apublisher
| Apublish_topic_names
| Asubscribe_topic_names
| Asubscription_values
| Acallbacks
| Acallback_names
| Acallback_groups
| Acallback_group_names
| Apaths
| Avariable_passings
| Amessage_contexts.

Definition accessor_type (a : accessor) : Type :=
  match a with
  | Anode_name => string
  | Apublisher => list PublisherStructValue
  | Apublish_topic_names => list string
  | Asubscribe_topic_names => list string
  | Asubscription_values => list SubscriptionStructValue
  | Acallbacks => option (list CallbackStructValue)
  | Acallback_names => option (list string)
  | Acallback_groups => option (list CallbackGroupStructValue)
  | Acallback_group_names => option (list string)
  | Apaths => list NodePathStructValue
  | Avariable_passings => option (list VariablePassingStructValue)
  | Amessage_contexts => list MessageContext
  end.

Definition getattr (a : accessor) : M t (accessor_type a) :=
  match a return M t (accessor_type a) with
  | Anode_name => node_name
  | Apublisher => publisher
  | Apublish_topic_names => publish_topic_names
  | Asubscribe_topic_names => subscribe_topic_names
  | Asubscription_values => subscription_values
  | Acallbacks => callbacks
  | Acallback_names => callback_names
  | Acallback_groups => callback_groups
  | Acallback_group_names => callback_group_names
  | Apaths => paths
  | Avariable_passings => variable_passings
  | Amessage_contexts => message_contexts
  end.

(** Everything that can be called on an instance. *)
Inductive method : Type :=
| Mgetattr (a : accessor)
| Mget_subscription (subscribe_topic_name : string)
| Mget_publisher (publish_topic_name : string).

Definition method_type (m : method) : Type :=
  match m with
  | Mgetattr a => accessor_type a
  | Mget_subscription _ => SubscriptionStructValue
  | Mget_publisher _ => PublisherStructValue
  end.

Definition call (m : method) : M t (method_type m) :=
  match m return M t (method_type m) with
  | Mgetattr a => getattr a
  | Mget_subscription name => get_subscription name
  | Mget_publisher name => get_publisher name
  end.

End Methods.

Arguments t : clear implicits.

End NodeStructValue.

(** ** Concrete value objects for the scenarios of spec section 8 *)
Module Scenario.

(** An endpoint: its topic and a serial number telling apart two entries
    on the same topic. *)
Record Endpoint : Type := {
  ep_topic : string;
  ep_serial : nat
}.

Record Cb : Type := { cb_name : string }.

Record Cbg : Type := {
  cbg_name : string;
  cbg_cbs : list Cb
}.

#[global] Instance Endpoint_topic : HasTopicName Endpoint := ep_topic.
#[global] Instance Cb_name : HasCallbackName Cb := cb_name.
#[global] Instance Cbg_group : IsCallbackGroup Cbg Cb :=
  {| cbg_callbacks := cbg_cbs; callback_group_name := cbg_name |}.

Definition Node : Type :=
  NodeStructValue.t Endpoint Endpoint unit Cbg unit unit.

Definition out0 : Endpoint := {| ep_topic := "/out"; ep_serial := 0 |}.
Definition in0 : Endpoint := {| ep_topic := "/in"; ep_serial := 0 |}.
Definition x0 : Endpoint := {| ep_topic := "/x"; ep_serial := 0 |}.
Definition x1 : Endpoint := {| ep_topic := "/x"; ep_serial := 1 |}.

Definition c1 : Cb := {| cb_name := "c1" |}.
Definition c2 : Cb := {| cb_name := "c2" |}.
Definition c3 : Cb := {| cb_name := "c3" |}.
Definition groupA : Cbg := {| cbg_name := "A"; cbg_cbs := [c1; c2] |}.
Definition groupB : Cbg := {| cbg_name := "B"; cbg_cbs := [c3] |}.

(** The end-to-end scenario: callback groups not extracted. *)
Definition nodeA : Node :=
  NodeStructValue.__init__ "nodeA" [out0] [in0] [] None None [].

(** Callback groups extracted, and there are none. *)
Definition nodeEmpty : Node :=
  NodeStructValue.__init__ "nodeE" [out0] [in0] [] (Some []) None [].

(** Two groups, [A = [c1; c2]] then [B = [c3]]. *)
Definition nodeAB : Node :=
  NodeStructValue.__init__ "nodeAB" [out0] [in0] []
    (Some [groupA; groupB]) (Some []) [].

(** The duplicate-topic scenario, on both collections. *)
Definition nodeX : Node :=
  NodeStructValue.__init__ "nodeX" [out0; x0; x1] [x0; in0; x1] []
    None None [].

Definition id1 : instance NodeValue.t :=
  {| py_id := 1; py_state := NodeValue.__init__ "n" (Some "7") |}.
Definition id2 : instance NodeValue.t :=
  {| py_id := 2; py_state := NodeValue.__init__ "n" (Some "7") |}.
Definition id3 : instance NodeValue.t :=
  {| py_id := 3; py_state := NodeValue.__init__ "n" None |}.
Definition id4 : instance NodeValue.t :=
  {| py_id := 4; py_state := NodeValue.__init__ "m" (Some "7") |}.

(** Three publishers and three subscriptions, each collection on
    pairwise distinct topics. *)
Definition nodeU : Node :=
  NodeStructValue.__init__ "nodeU" [out0; x0; in0] [in0; out0; x1] []
    None None [].

End Scenario.

(** * Properties *)

(** ** Method computations *)

(** A computation that hands the instance back as it received it. *)
Definition read_only {S A : Type} (m : M S A) : Prop :=
  forall self, exec m self = self.

Lemma read_only_ret {S A : Type} (a : A) : read_only (@ret S A a).
Proof. intro self. reflexivity. Qed.

Lemma read_only_read {S A : Type} (attr : S -> A) : read_only (read attr).
Proof. intro self. reflexivity. Qed.

Lemma read_only_raise {S A : Type} (e : exn) : read_only (@raise S A e).
Proof. intro self. reflexivity. Qed.

Lemma read_only_lift {S A : Type} (r : result A) : read_only (@lift S A r).
Proof. intro self. reflexivity. Qed.

Lemma read_only_iter {S A : Type} (o : option (list A)) :
  read_only (@iter S A o).
Proof. destruct o; intro self; reflexivity. Qed.

Lemma read_only_bind {S A B : Type} (m : M S A) (k : A -> M S B) :
  read_only m -> (forall a, read_only (k a)) -> read_only (bind m k).
Proof.
  intros Hm Hk self. unfold exec, bind.
  specialize (Hm self). unfold exec in Hm.
  destruct (m self) as [[a | e] self']; simpl in Hm; subst self'.
  - apply Hk.
  - reflexivity.
Qed.

Lemma read_only_try {S A : Type} (body handler : M S A) :
  read_only body -> read_only handler ->
  read_only (try_except_ItemNotFoundError body handler).
Proof.
  intros Hb Hh self. unfold exec, try_except_ItemNotFoundError.
  specialize (Hb self). unfold exec in Hb.
  destruct (body self) as [[a | [msg | msg]] self']; simpl in Hb; subst self';
    try reflexivity.
  apply Hh.
Qed.

Create HintDb frame.
#[export] Hint Resolve read_only_ret read_only_read read_only_raise
  read_only_lift read_only_iter : frame.

(** Follows the shape of a method body down to its primitive steps. *)
Ltac frame :=
  repeat first
    [ solve [auto with frame]
    | apply read_only_bind; [| intro]
    | apply read_only_try
    | match goal with
      | |- read_only (match ?o with _ => _ end) => destruct o
      end ].

(** Running [m] then [k] when [m] returns [a] and leaves the instance
    alone. *)
Lemma eval_bind_ok {S A B : Type} (m : M S A) (k : A -> M S B) self a :
  eval m self = Ok a -> exec m self = self ->
  eval (bind m k) self = eval (k a) self.
Proof.
  unfold eval, exec, bind. destruct (m self) as [r self']. simpl.
  intros -> ->. reflexivity.
Qed.

(** ** Strings *)

Lemma prefix_append (n post : string) : prefix n (String.append n post) = true.
Proof.
  induction n as [| c n IH]; simpl.
  - destruct post; reflexivity.
  - destruct (Ascii.ascii_dec c c) as [_ | Hc]; [exact IH | congruence].
Qed.

Lemma prefix_inv (n h : string) :
  prefix n h = true -> exists post, h = String.append n post.
Proof.
  revert h. induction n as [| c n IH]; intros h Hp.
  - exists h. reflexivity.
  - destruct h as [| d h]; simpl in Hp; [discriminate |].
    destruct (Ascii.ascii_dec c d) as [-> | _]; [| discriminate].
    destruct (IH h Hp) as [post ->]. exists post. reflexivity.
Qed.

Lemma contains_empty (n : string) : contains n "" = prefix n "".
Proof. unfold contains. apply orb_false_r. Qed.

Lemma contains_String (n : string) c (h : string) :
  contains n (String c h) = prefix n (String c h) || contains n h.
Proof. reflexivity. Qed.

(** [contains] decides the substring relation. *)
Lemma contains_spec (n h : string) :
  contains n h = true <->
  exists pre post, h = String.append pre (String.append n post).
Proof.
  split.
  - induction h as [| c h IH]; intro Hc.
    + rewrite contains_empty in Hc. apply prefix_inv in Hc.
      destruct Hc as [post Hp]. exists EmptyString, post. exact Hp.
    + rewrite contains_String in Hc.
      apply orb_true_iff in Hc. destruct Hc as [Hp | Hr].
      * apply prefix_inv in Hp. destruct Hp as [post Hp].
        exists EmptyString, post. exact Hp.
      * destruct (IH Hr) as (pre & post & ->).
        exists (String c pre), post. reflexivity.
  - intros (pre & post & ->). induction pre as [| c pre IH].
    + change (String.append "" (String.append n post))
        with (String.append n post).
      destruct (String.append n post) eqn:E.
      * rewrite contains_empty, <- E. apply prefix_append.
      * rewrite contains_String, <- E, prefix_append. reflexivity.
    + change (String.append (String c pre) (String.append n post))
        with (String c (String.append pre (String.append n post))).
      rewrite contains_String, IH. apply orb_true_r.
Qed.

Lemma append_empty_r (s : string) : String.append s "" = s.
Proof. induction s as [| c s IH]; simpl; congruence. Qed.

Lemma contains_suffix (pre n : string) :
  contains n (String.append pre n) = true.
Proof.
  apply contains_spec. exists pre, "". now rewrite append_empty_r.
Qed.

(** ** Util *)

Lemma flatten_length {A : Type} (x : list (list A)) :
  length (Util.flatten x) = list_sum (map (@length A) x).
Proof.
  induction x as [| xs rest IH]; simpl.
  - reflexivity.
  - rewrite length_app, IH. reflexivity.
Qed.

(** Element [j] of sequence [i] sits after all elements of the sequences
    before [i]. *)
Lemma flatten_nth_error {A : Type} (x : list (list A)) :
  forall i j xs c,
    nth_error x i = Some xs -> nth_error xs j = Some c ->
    nth_error (Util.flatten x)
      (list_sum (map (@length A) (firstn i x)) + j) = Some c.
Proof.
  induction x as [| ys rest IH]; intros i j xs c Hi Hj.
  - destruct i; discriminate.
  - destruct i as [| i]; simpl in Hi |- *.
    + injection Hi as ->.
      rewrite nth_error_app1; [exact Hj |].
      apply nth_error_Some. congruence.
    + rewrite nth_error_app2 by lia.
      replace (length ys + list_sum (map (@length A) (firstn i rest)) + j
               - length ys)
        with (list_sum (map (@length A) (firstn i rest)) + j) by lia.
      eapply IH; eassumption.
Qed.

(** [find_one] returns the head of the matching entries. *)
Lemma find_one_filter {A : Type} (condition : A -> bool) (items : list A) :
  Util.find_one condition items =
  match filter condition items with
  | [] => Raise (ItemNotFoundError "item not found")
  | x :: _ => Ok x
  end.
Proof.
  induction items as [| x rest IH]; simpl.
  - reflexivity.
  - destruct (condition x); [reflexivity | exact IH].
Qed.

(** The head of the matching entries is the first entry that matches. *)
Lemma filter_head_split {A : Type} (condition : A -> bool) (items : list A) :
  forall p r, filter condition items = p :: r ->
    exists before after,
      items = before ++ p :: after /\
      Forall (fun x => condition x = false) before /\
      condition p = true.
Proof.
  induction items as [| x rest IH]; intros p r Hf; simpl in Hf.
  - discriminate.
  - destruct (condition x) eqn:Hx.
    + injection Hf as -> _. exists [], rest. auto.
    + destruct (IH p r Hf) as (before & after & -> & Hb & Hp).
      exists (x :: before), after. auto.
Qed.

Lemma filter_nil_iff {A : Type} (condition : A -> bool) (items : list A) :
  filter condition items = [] <->
  forall x, In x items -> condition x = false.
Proof.
  induction items as [| x rest IH]; simpl.
  - split; [intros _ y [] | reflexivity].
  - destruct (condition x) eqn:Hx; split.
    + discriminate.
    + intro Hall. specialize (Hall x (or_introl eq_refl)). congruence.
    + intros Hnil y [<- | Hy]; [exact Hx | now apply IH].
    + intro Hall. apply IH. intros y Hy. apply Hall. now right.
Qed.

(** Occurrences of [v] in a projection are the entries projecting to
    [v]. *)
Lemma count_occ_map_filter {A : Type} (f : A -> string) (l : list A)
    (v : string) :
  count_occ string_dec (map f l) v =
  length (filter (fun x => String.eqb (f x) v) l).
Proof.
  induction l as [| x rest IH]; simpl.
  - reflexivity.
  - destruct (string_dec (f x) v) as [E | E].
    + apply String.eqb_eq in E. rewrite E. simpl. now rewrite IH.
    + apply String.eqb_neq in E. rewrite E. exact IH.
Qed.

(** ** NodeValue *)

Lemma eqb_option_str_eq (a b : option string) :
  NodeValue.eqb_option_str a b = true <-> a = b.
Proof.
  destruct a as [x |], b as [y |]; simpl; split; intro E;
    try discriminate; try reflexivity.
  - apply String.eqb_eq in E. now subst.
  - injection E as ->. apply String.eqb_refl.
Qed.

(** What [==] returns on two instances, in terms of what they store. *)
Lemma py_eq_stored (a b : instance NodeValue.t) :
  NodeValue.py_eq a b =
  Ok (String.eqb (NodeValue._NodeValue__node_name (py_state a))
        (NodeValue._NodeValue__node_name (py_state b))
      && NodeValue.eqb_option_str
           (NodeValue._NodeValue__node_id (py_state a))
           (NodeValue._NodeValue__node_id (py_state b))).
Proof. destruct a as [ia [na oa]], b as [ib [nb ob]]. reflexivity. Qed.

(** C7: two [NodeValue] instances compare equal exactly when the
    [node_name] they store and the [node_id] they store are equal, and
    unequal exactly when one of the two differs; for instances built by
    [__init__] that is: exactly when the constructor arguments are
    equal.  The comparison always returns, it does not look at the
    identity of the instances, and two distinct instances storing equal
    fields are equal. *)
Theorem NodeValue_eq_structural :
  (forall a b : instance NodeValue.t,
     (exists v, NodeValue.py_eq a b = Ok v) /\
     (NodeValue.py_eq a b = Ok true <->
      NodeValue._NodeValue__node_name (py_state a)
        = NodeValue._NodeValue__node_name (py_state b) /\
      NodeValue._NodeValue__node_id (py_state a)
        = NodeValue._NodeValue__node_id (py_state b)) /\
     (NodeValue.py_eq a b = Ok false <->
      NodeValue._NodeValue__node_name (py_state a)
        <> NodeValue._NodeValue__node_name (py_state b) \/
      NodeValue._NodeValue__node_id (py_state a)
        <> NodeValue._NodeValue__node_id (py_state b))) /\
  (forall (ida idb : nat) (n n' : string) (i i' : option string),
     NodeValue.py_eq
       {| py_id := ida; py_state := NodeValue.__init__ n i |}
       {| py_id := idb; py_state := NodeValue.__init__ n' i' |} = Ok true
     <-> n = n' /\ i = i') /\
  (exists a b : instance NodeValue.t,
     py_is a b = false /\ NodeValue.py_eq a b = Ok true).
Proof.
  assert (Htrue : forall a b : instance NodeValue.t,
            NodeValue.py_eq a b = Ok true <->
            NodeValue._NodeValue__node_name (py_state a)
              = NodeValue._NodeValue__node_name (py_state b) /\
            NodeValue._NodeValue__node_id (py_state a)
              = NodeValue._NodeValue__node_id (py_state b)).
  { intros a b. rewrite py_eq_stored. split.
    - intro E. injection E as E. apply andb_true_iff in E.
      destruct E as [En Eo].
      apply String.eqb_eq in En. apply eqb_option_str_eq in Eo. auto.
    - intros [En Eo]. apply String.eqb_eq in En.
      apply eqb_option_str_eq in Eo. rewrite En, Eo. reflexivity. }
  split; [| split].
  - intros a b. split; [| split].
    + rewrite py_eq_stored. eexists. reflexivity.
    + apply Htrue.
    + rewrite py_eq_stored. split.
      * intro E. injection E as E. apply andb_false_iff in E.
        destruct E as [En | Eo].
        -- left. now apply String.eqb_neq.
        -- right. intro Eq. apply eqb_option_str_eq in Eq. congruence.
      * intros [Hn | Ho]; f_equal; apply andb_false_iff.
        -- left. now apply String.eqb_neq.
        -- right.
           destruct (NodeValue.eqb_option_str _ _) eqn:Eo;
             [| reflexivity].
           apply eqb_option_str_eq in Eo. contradiction.
  - intros ida idb n n' i i'. apply Htrue.
  - exists Scenario.id1, Scenario.id2. split; reflexivity.
Qed.

(** ** NodeStructValue *)

Section NodeStructValueProperties.

Import NodeStructValue.

Context {PublisherStructValue SubscriptionStructValue NodePathStructValue
         CallbackGroupStructValue CallbackStructValue
         VariablePassingStructValue MessageContext : Type}.
Context `{HasTopicName PublisherStructValue}
        `{HasTopicName SubscriptionStructValue}
        `{HasCallbackName CallbackStructValue}
        `{IsCallbackGroup CallbackGroupStructValue CallbackStructValue}.

Local Abbreviation Self :=
  (NodeStructValue.t PublisherStructValue SubscriptionStructValue
     NodePathStructValue CallbackGroupStructValue
     VariablePassingStructValue MessageContext).

Implicit Types (self : Self) (name : string).

(** *** What each derived view evaluates to *)

Lemma eval_callbacks self :
  eval callbacks self =
  Ok (option_map (fun cbgs => Util.flatten (map cbg_callbacks cbgs))
        (_callback_groups self)).
Proof.
  unfold eval, callbacks, bind, read, iter, ret, raise. cbn.
  destruct (_callback_groups self) eqn:E; cbn; rewrite ?E; reflexivity.
Qed.

Lemma eval_callback_names self :
  eval callback_names self =
  Ok (option_map
        (fun cbgs => map callback_name (Util.flatten (map cbg_callbacks cbgs)))
        (_callback_groups self)).
Proof.
  unfold eval, callback_names, callbacks, bind, read, iter, ret, raise. cbn.
  destruct (_callback_groups self) eqn:E; cbn; rewrite ?E; reflexivity.
Qed.

Lemma eval_callback_group_names self :
  eval callback_group_names self =
  Ok (option_map (map callback_group_name) (_callback_groups self)).
Proof.
  unfold eval, callback_group_names, callback_groups, bind, read, iter, ret,
    raise. cbn.
  destruct (_callback_groups self) eqn:E; cbn; rewrite ?E; reflexivity.
Qed.

Lemma eval_get_publisher self name :
  eval (get_publisher name) self =
  match filter (fun x => String.eqb (topic_name x) name) (_publishers self)
  with
  | [] => Raise (ItemNotFoundError
                   (String.append "Failed to find publisher info. "
                      (String.append "topic_name: " name)))
  | p :: _ => Ok p
  end.
Proof.
  unfold eval, get_publisher, try_except_ItemNotFoundError, bind, read, lift,
    raise.
  rewrite find_one_filter.
  destruct (filter _ (_publishers self)); reflexivity.
Qed.

Lemma eval_get_subscription self name :
  eval (get_subscription name) self =
  match filter (fun x => String.eqb (topic_name x) name) (_subscriptions self)
  with
  | [] => Raise (ItemNotFoundError
                   (String.append "Failed to find subscription info. "
                      (String.append "topic_name: " name)))
  | p :: _ => Ok p
  end.
Proof.
  unfold eval, get_subscription, try_except_ItemNotFoundError, bind, read,
    lift, raise.
  rewrite find_one_filter.
  destruct (filter _ (_subscriptions self)); reflexivity.
Qed.

(** *** No method assigns to [self] *)

Lemma read_only_callbacks : read_only (callbacks : M Self _).
Proof. unfold callbacks. frame. Qed.

Lemma read_only_getattr (a : accessor) : read_only (getattr a : M Self _).
Proof.
  pose proof read_only_callbacks.
  destruct a; simpl;
    unfold node_name, publisher, publish_topic_names, subscribe_topic_names,
      subscription_values, callback_names, callback_group_names,
      callback_groups, paths, variable_passings, message_contexts;
    frame.
Qed.

Lemma read_only_get_publisher name : read_only (get_publisher name : M Self _).
Proof. unfold get_publisher. frame. Qed.

Lemma read_only_get_subscription name :
  read_only (get_subscription name : M Self _).
Proof. unfold get_subscription. frame. Qed.

Lemma exec_iter_read_only {A : Type} (m : M Self A) :
  read_only m -> forall k self, Nat.iter k (exec m) self = self.
Proof.
  intros Hm k self. induction k as [| k IH]; simpl.
  - reflexivity.
  - rewrite IH. apply Hm.
Qed.

(** Every property returns a value. *)
Lemma getattr_total (a : accessor) self :
  exists v, eval (getattr a) self = Ok v.
Proof.
  destruct a; simpl;
    try (eexists; reflexivity).
  - rewrite eval_callbacks. eexists; reflexivity.
  - rewrite eval_callback_names. eexists; reflexivity.
  - rewrite eval_callback_group_names. eexists; reflexivity.
Qed.

(** *** The claims *)

(** C1: [callbacks] is [None] exactly when [callback_groups] is [None];
    otherwise it is the flattening of the groups' callback sequences:
    as long as all of them together, with callback [j] of group [i]
    placed after all callbacks of the groups before [i]; for an empty
    sequence of groups it is the empty sequence, not [None]. *)
Theorem callbacks_option_discipline self :
  (eval callbacks self = Ok None <-> _callback_groups self = None) /\
  (forall cbgs, _callback_groups self = Some cbgs ->
     exists cbs,
       eval callbacks self = Ok (Some cbs) /\
       length cbs
         = list_sum (map (fun g => length (cbg_callbacks g)) cbgs) /\
       forall i j g c,
         nth_error cbgs i = Some g ->
         nth_error (cbg_callbacks g) j = Some c ->
         nth_error cbs
           (list_sum (map (fun g => length (cbg_callbacks g))
                        (firstn i cbgs)) + j) = Some c) /\
  (_callback_groups self = Some [] -> eval callbacks self = Ok (Some [])).
Proof.
  rewrite eval_callbacks. split; [| split].
  - destruct (_callback_groups self); simpl; split; congruence.
  - intros cbgs ->. simpl. eexists. split; [reflexivity |]. split.
    + rewrite flatten_length, map_map. reflexivity.
    + intros i j g c Hi Hj.
      rewrite <- (map_map cbg_callbacks (@length _)), <- firstn_map.
      apply flatten_nth_error with (xs := cbg_callbacks g); [| exact Hj].
      rewrite nth_error_map, Hi. reflexivity.
  - intros ->. reflexivity.
Qed.

(** C2: [get_publisher] returns the publisher on the requested topic
    when exactly one publisher is on it; when none is, it raises
    [ItemNotFoundError] with a message that contains the requested topic
    name and names the publishers.  [get_subscription] does the same
    over the subscriptions. *)
Theorem get_publisher_get_subscription_contract self name :
  (forall p,
     filter (fun x => String.eqb (topic_name x) name) (_publishers self)
       = [p] ->
     eval (get_publisher name) self = Ok p /\ topic_name p = name) /\
  ((forall x, In x (_publishers self) -> topic_name x <> name) ->
   exists msg,
     eval (get_publisher name) self = Raise (ItemNotFoundError msg) /\
     contains name msg = true /\ contains "publisher" msg = true) /\
  (forall p,
     filter (fun x => String.eqb (topic_name x) name) (_subscriptions self)
       = [p] ->
     eval (get_subscription name) self = Ok p /\ topic_name p = name) /\
  ((forall x, In x (_subscriptions self) -> topic_name x <> name) ->
   exists msg,
     eval (get_subscription name) self = Raise (ItemNotFoundError msg) /\
     contains name msg = true /\ contains "subscription" msg = true).
Proof.
  rewrite eval_get_publisher, eval_get_subscription.
  split; [| split; [| split]].
  - intros p Hp. rewrite Hp. split; [reflexivity |].
    assert (Hin : In p (filter (fun x => String.eqb (topic_name x) name)
                          (_publishers self))) by (rewrite Hp; now left).
    apply filter_In in Hin. now apply String.eqb_eq.
  - intro Hnone.
    assert (Hf : filter (fun x => String.eqb (topic_name x) name)
                   (_publishers self) = []).
    { apply filter_nil_iff. intros x Hx. apply String.eqb_neq. auto. }
    rewrite Hf. eexists. split; [reflexivity |]. split.
    + apply (contains_suffix "Failed to find publisher info. topic_name: ").
    + apply contains_spec.
      exists "Failed to find ", (String.append " info. topic_name: " name).
      reflexivity.
  - intros p Hp. rewrite Hp. split; [reflexivity |].
    assert (Hin : In p (filter (fun x => String.eqb (topic_name x) name)
                          (_subscriptions self))) by (rewrite Hp; now left).
    apply filter_In in Hin. now apply String.eqb_eq.
  - intro Hnone.
    assert (Hf : filter (fun x => String.eqb (topic_name x) name)
                   (_subscriptions self) = []).
    { apply filter_nil_iff. intros x Hx. apply String.eqb_neq. auto. }
    rewrite Hf. eexists. split; [reflexivity |]. split.
    + apply (contains_suffix "Failed to find subscription info. topic_name: ").
    + apply contains_spec.
      exists "Failed to find ", (String.append " info. topic_name: " name).
      reflexivity.
Qed.

(** C3: [publish_topic_names] is the topic-name projection of the
    publishers: as long, entry [i] being the topic of publisher [i], and
    a topic occurring as often as there are publishers on it;
    [subscribe_topic_names] is the same projection of the
    subscriptions. *)
Theorem topic_names_projection self :
  (exists names,
     eval publish_topic_names self = Ok names /\
     length names = length (_publishers self) /\
     (forall i p, nth_error (_publishers self) i = Some p ->
                  nth_error names i = Some (topic_name p)) /\
     (forall v, count_occ string_dec names v
                = length (filter (fun x => String.eqb (topic_name x) v)
                            (_publishers self)))) /\
  (exists names,
     eval subscribe_topic_names self = Ok names /\
     length names = length (_subscriptions self) /\
     (forall i p, nth_error (_subscriptions self) i = Some p ->
                  nth_error names i = Some (topic_name p)) /\
     (forall v, count_occ string_dec names v
                = length (filter (fun x => String.eqb (topic_name x) v)
                            (_subscriptions self)))).
Proof.
  split; eexists; (split; [reflexivity |]); simpl;
    (split; [apply length_map |]);
    (split; [| intro v; apply count_occ_map_filter]);
    intros i p Hi; rewrite nth_error_map, Hi; reflexivity.
Qed.

(** C4: when two or more publishers are on the requested topic,
    [get_publisher] returns the first of them in declared order, and
    returns it again after any number of earlier calls; the same for
    [get_subscription] over the subscriptions. *)
Theorem get_first_match self name :
  (2 <= length (filter (fun x => String.eqb (topic_name x) name)
                  (_publishers self)) ->
   exists before p after,
     _publishers self = before ++ p :: after /\
     Forall (fun x => topic_name x <> name) before /\
     topic_name p = name /\
     forall k,
       eval (get_publisher name)
         (Nat.iter k (exec (get_publisher name)) self) = Ok p) /\
  (2 <= length (filter (fun x => String.eqb (topic_name x) name)
                  (_subscriptions self)) ->
   exists before p after,
     _subscriptions self = before ++ p :: after /\
     Forall (fun x => topic_name x <> name) before /\
     topic_name p = name /\
     forall k,
       eval (get_subscription name)
         (Nat.iter k (exec (get_subscription name)) self) = Ok p).
Proof.
  split; intro Hlen.
  - destruct (filter _ (_publishers self)) as [| p r] eqn:Hf;
      [simpl in Hlen; lia |].
    destruct (filter_head_split _ _ _ _ Hf) as (before & after & E & Hb & Hp).
    exists before, p, after. repeat split.
    + exact E.
    + eapply Forall_impl; [| exact Hb]. intros x Hx. now apply String.eqb_neq.
    + now apply String.eqb_eq.
    + intro k.
      rewrite (exec_iter_read_only _ (read_only_get_publisher name)).
      rewrite eval_get_publisher, Hf. reflexivity.
  - destruct (filter _ (_subscriptions self)) as [| p r] eqn:Hf;
      [simpl in Hlen; lia |].
    destruct (filter_head_split _ _ _ _ Hf) as (before & after & E & Hb & Hp).
    exists before, p, after. repeat split.
    + exact E.
    + eapply Forall_impl; [| exact Hb]. intros x Hx. now apply String.eqb_neq.
    + now apply String.eqb_eq.
    + intro k.
      rewrite (exec_iter_read_only _ (read_only_get_subscription name)).
      rewrite eval_get_subscription, Hf. reflexivity.
Qed.

(** C5: every property returns a value (none raises); [get_publisher]
    raises exactly when no publisher is on the requested topic, and then
    what it raises is [ItemNotFoundError]; the same for
    [get_subscription] over the subscriptions. *)
Theorem only_lookups_raise self :
  (forall a, exists v, eval (getattr a) self = Ok v) /\
  (forall name,
     ((exists e, eval (get_publisher name) self = Raise e) <->
      (forall x, In x (_publishers self) -> topic_name x <> name)) /\
     (forall e, eval (get_publisher name) self = Raise e ->
                exists msg, e = ItemNotFoundError msg)) /\
  (forall name,
     ((exists e, eval (get_subscription name) self = Raise e) <->
      (forall x, In x (_subscriptions self) -> topic_name x <> name)) /\
     (forall e, eval (get_subscription name) self = Raise e ->
                exists msg, e = ItemNotFoundError msg)).
Proof.
  split; [intro a; apply getattr_total |].
  split; intro name.
  - rewrite eval_get_publisher.
    destruct (filter _ (_publishers self)) as [| p r] eqn:Hf.
    + split; [| intros e E; injection E as <-; eexists; reflexivity].
      split; [| intros _; eexists; reflexivity].
      intros _ x Hx. apply String.eqb_neq.
      exact (proj1 (filter_nil_iff _ _) Hf x Hx).
    + split; [| discriminate].
      split; [intros [e E]; discriminate |].
      intro Hnone. exfalso.
      assert (Hin : In p (filter (fun x => String.eqb (topic_name x) name)
                            (_publishers self))) by (rewrite Hf; now left).
      apply filter_In in Hin. destruct Hin as [Hin Hp].
      apply String.eqb_eq in Hp. exact (Hnone p Hin Hp).
  - rewrite eval_get_subscription.
    destruct (filter _ (_subscriptions self)) as [| p r] eqn:Hf.
    + split; [| intros e E; injection E as <-; eexists; reflexivity].
      split; [| intros _; eexists; reflexivity].
      intros _ x Hx. apply String.eqb_neq.
      exact (proj1 (filter_nil_iff _ _) Hf x Hx).
    + split; [| discriminate].
      split; [intros [e E]; discriminate |].
      intro Hnone. exfalso.
      assert (Hin : In p (filter (fun x => String.eqb (topic_name x) name)
                            (_subscriptions self))) by (rewrite Hf; now left).
      apply filter_In in Hin. destruct Hin as [Hin Hp].
      apply String.eqb_eq in Hp. exact (Hnone p Hin Hp).
Qed.

(** C6: [callback_names] is [None] exactly when [callback_groups] is
    [None]; otherwise it is as long as [callbacks] and its entry [i] is
    the name of callback [i].  [callback_group_names] is [None] exactly
    when [callback_groups] is [None]; otherwise it is as long as
    [callback_groups] and its entry [i] is the name of group [i]. *)
Theorem names_projection self :
  (eval callback_names self = Ok None <-> _callback_groups self = None) /\
  (forall cbgs, _callback_groups self = Some cbgs ->
     exists cbs names,
       eval callbacks self = Ok (Some cbs) /\
       eval callback_names self = Ok (Some names) /\
       length names = length cbs /\
       forall i c, nth_error cbs i = Some c ->
                   nth_error names i = Some (callback_name c)) /\
  (eval callback_group_names self = Ok None <->
   _callback_groups self = None) /\
  (forall cbgs, _callback_groups self = Some cbgs ->
     exists names,
       eval callback_group_names self = Ok (Some names) /\
       length names = length cbgs /\
       forall i g, nth_error cbgs i = Some g ->
                   nth_error names i = Some (callback_group_name g)).
Proof.
  rewrite eval_callbacks, eval_callback_names, eval_callback_group_names.
  split; [| split; [| split]].
  - destruct (_callback_groups self); simpl; split; congruence.
  - intros cbgs ->. simpl. do 2 eexists.
    split; [reflexivity |]. split; [reflexivity |].
    split; [apply length_map |].
    intros i c Hi. rewrite nth_error_map, Hi. reflexivity.
  - destruct (_callback_groups self); simpl; split; congruence.
  - intros cbgs ->. simpl. eexists. split; [reflexivity |].
    split; [apply length_map |].
    intros i g Hi. rewrite nth_error_map, Hi. reflexivity.
Qed.

(** C8: after any property is read, and after [get_publisher] or
    [get_subscription] returns or raises, the instance is as it was
    before the call, and so is each of its seven attributes. *)
Theorem methods_leave_self_unchanged self (m : method) :
  exec (call m) self = self /\
  _node_name (exec (call m) self) = _node_name self /\
  _publishers (exec (call m) self) = _publishers self /\
  _subscriptions (exec (call m) self) = _subscriptions self /\
  _node_path_values (exec (call m) self) = _node_path_values self /\
  _callback_groups (exec (call m) self) = _callback_groups self /\
  _variable_passings_info (exec (call m) self)
    = _variable_passings_info self /\
  _message_contexts (exec (call m) self) = _message_contexts self.
Proof.
  assert (E : exec (call m) self = self).
  { destruct m as [a | name | name]; simpl.
    - apply read_only_getattr.
    - apply read_only_get_subscription.
    - apply read_only_get_publisher. }
  rewrite E. repeat split.
Qed.

(** C9: reading a property twice in a row on the same instance returns
    the same value both times. *)
Theorem accessor_idempotent self (a : accessor) :
  exists v,
    eval (x <- getattr a ;; y <- getattr a ;; ret (x, y)) self = Ok (v, v).
Proof.
  destruct (getattr_total a self) as [v Hv].
  exists v.
  rewrite (eval_bind_ok _ _ _ _ Hv (read_only_getattr a self)).
  rewrite (eval_bind_ok _ _ _ _ Hv (read_only_getattr a self)).
  reflexivity.
Qed.

(** C10: on a freshly constructed instance the direct properties return
    the constructor's arguments: [node_name], [publisher],
    [subscription_values], [paths], [callback_groups],
    [variable_passings] and [message_contexts]. *)
Theorem init_accessor_roundtrip
    (node_name : string)
    (publisher_values : list PublisherStructValue)
    (subscriptions_info : list SubscriptionStructValue)
    (node_path_values : list NodePathStructValue)
    (callback_group_values : option (list CallbackGroupStructValue))
    (variable_passing_values : option (list VariablePassingStructValue))
    (message_contexts : list MessageContext) :
  let self : Self :=
    __init__ node_name publisher_values subscriptions_info node_path_values
      callback_group_values variable_passing_values message_contexts in
  eval NodeStructValue.node_name self = Ok node_name /\
  eval publisher self = Ok publisher_values /\
  eval subscription_values self = Ok subscriptions_info /\
  eval paths self = Ok node_path_values /\
  eval callback_groups self = Ok callback_group_values /\
  eval variable_passings self = Ok variable_passing_values /\
  eval NodeStructValue.message_contexts self = Ok message_contexts.
Proof. repeat split. Qed.

End NodeStructValueProperties.

(** ** The scenarios of spec section 8, evaluated *)

Example scenario_end_to_end :
  eval (NodeStructValue.get_publisher "/out") Scenario.nodeA
    = Ok Scenario.out0 /\
  eval (NodeStructValue.get_publisher "/missing") Scenario.nodeA
    = Raise (ItemNotFoundError
               "Failed to find publisher info. topic_name: /missing") /\
  eval (NodeStructValue.get_subscription "/missing") Scenario.nodeA
    = Raise (ItemNotFoundError
               "Failed to find subscription info. topic_name: /missing") /\
  eval NodeStructValue.callbacks Scenario.nodeA = Ok None /\
  eval NodeStructValue.publish_topic_names Scenario.nodeA = Ok ["/out"].
Proof. repeat split. Qed.

Example scenario_flattening_order :
  eval NodeStructValue.callbacks Scenario.nodeAB
    = Ok (Some [Scenario.c1; Scenario.c2; Scenario.c3]) /\
  eval NodeStructValue.callback_names Scenario.nodeAB
    = Ok (Some ["c1"; "c2"; "c3"]) /\
  eval NodeStructValue.callback_group_names Scenario.nodeAB
    = Ok (Some ["A"; "B"]).
Proof. repeat split. Qed.

Example scenario_duplicate_topic :
  eval (NodeStructValue.get_publisher "/x") Scenario.nodeX = Ok Scenario.x0 /\
  eval (NodeStructValue.get_subscription "/x") Scenario.nodeX
    = Ok Scenario.x0 /\
  eval NodeStructValue.publish_topic_names Scenario.nodeX
    = Ok ["/out"; "/x"; "/x"].
Proof. repeat split. Qed.

Lemma callbacks_option_discipline_witness :
  (NodeStructValue._callback_groups Scenario.nodeA = None /\
   eval NodeStructValue.callbacks Scenario.nodeA = Ok None) /\
  (NodeStructValue._callback_groups Scenario.nodeAB
     = Some [Scenario.groupA; Scenario.groupB] /\
   exists cbs,
     eval NodeStructValue.callbacks Scenario.nodeAB = Ok (Some cbs) /\
     length cbs = 3 /\
     nth_error cbs 2 = Some Scenario.c3) /\
  (NodeStructValue._callback_groups Scenario.nodeEmpty = Some [] /\
   eval NodeStructValue.callbacks Scenario.nodeEmpty = Ok (Some [])).
Proof.
  split; [| split].
  - split; [reflexivity |].
    exact (proj2 (proj1 (callbacks_option_discipline Scenario.nodeA))
             eq_refl).
  - split; [reflexivity |].
    destruct (proj1 (proj2 (callbacks_option_discipline Scenario.nodeAB))
                [Scenario.groupA; Scenario.groupB] eq_refl)
      as (cbs & E & L & N).
    exists cbs. split; [exact E |]. split; [exact L |].
    exact (N 1 0 Scenario.groupB Scenario.c3 eq_refl eq_refl).
  - split; [reflexivity |].
    exact (proj2 (proj2 (callbacks_option_discipline Scenario.nodeEmpty))
             eq_refl).
Defined.

Lemma get_publisher_get_subscription_contract_witness :
  (eval (NodeStructValue.get_publisher "/out") Scenario.nodeA
     = Ok Scenario.out0 /\
   topic_name Scenario.out0 = "/out") /\
  (exists msg,
     eval (NodeStructValue.get_publisher "/missing") Scenario.nodeA
       = Raise (ItemNotFoundError msg) /\
     contains "/missing" msg = true /\ contains "publisher" msg = true) /\
  (eval (NodeStructValue.get_subscription "/in") Scenario.nodeA
     = Ok Scenario.in0 /\
   topic_name Scenario.in0 = "/in") /\
  (exists msg,
     eval (NodeStructValue.get_subscription "/missing") Scenario.nodeA
       = Raise (ItemNotFoundError msg) /\
     contains "/missing" msg = true /\ contains "subscription" msg = true).
Proof.
  pose proof (get_publisher_get_subscription_contract Scenario.nodeA "/out")
    as (Pout & _ & _ & _).
  pose proof (get_publisher_get_subscription_contract Scenario.nodeA "/in")
    as (_ & _ & Sin & _).
  pose proof
    (get_publisher_get_subscription_contract Scenario.nodeA "/missing")
    as (_ & Pmiss & _ & Smiss).
  split; [exact (Pout Scenario.out0 eq_refl) |].
  split.
  { apply Pmiss. intros x [<- | []]. discriminate. }
  split; [exact (Sin Scenario.in0 eq_refl) |].
  apply Smiss. intros x [<- | []]. discriminate.
Defined.

Lemma topic_names_projection_witness :
  exists names,
    eval NodeStructValue.publish_topic_names Scenario.nodeX = Ok names /\
    length names = 3 /\
    nth_error names 2 = Some "/x" /\
    count_occ string_dec names "/x" = 2.
Proof.
  destruct (topic_names_projection Scenario.nodeX)
    as [(names & E & L & N & C) _].
  exists names. split; [exact E |]. split; [exact L |].
  split; [exact (N 2 Scenario.x1 eq_refl) | exact (C "/x")].
Defined.

Lemma get_first_match_witness :
  2 <= length (filter (fun x => String.eqb (topic_name x) "/x")
                 (NodeStructValue._publishers Scenario.nodeX)) /\
  exists before p after,
    NodeStructValue._publishers Scenario.nodeX = before ++ p :: after /\
    Forall (fun x => topic_name x <> "/x") before /\
    topic_name p = "/x" /\
    forall k,
      eval (NodeStructValue.get_publisher "/x")
        (Nat.iter k (exec (NodeStructValue.get_publisher "/x"))
           Scenario.nodeX) = Ok p.
Proof.
  assert (Hlen : 2 <= length (filter (fun x => String.eqb (topic_name x) "/x")
                                (NodeStructValue._publishers Scenario.nodeX)))
    by (simpl; lia).
  split; [exact Hlen |].
  exact (proj1 (get_first_match Scenario.nodeX "/x") Hlen).
Defined.

Lemma only_lookups_raise_witness :
  (exists v, eval NodeStructValue.callback_names Scenario.nodeAB = Ok v) /\
  (exists e,
     eval (NodeStructValue.get_publisher "/missing") Scenario.nodeX
       = Raise e) /\
  ~ (exists e,
       eval (NodeStructValue.get_subscription "/x") Scenario.nodeX = Raise e).
Proof.
  destruct (only_lookups_raise Scenario.nodeX) as (_ & Hp & Hs).
  split; [| split].
  - exact (proj1 (only_lookups_raise Scenario.nodeAB)
             NodeStructValue.Acallback_names).
  - apply (proj1 (Hp "/missing")).
    intros x [<- | [<- | [<- | []]]]; discriminate.
  - intro Hr. apply (proj1 (proj1 (Hs "/x")) Hr Scenario.x0).
    + now left.
    + reflexivity.
Defined.

Lemma names_projection_witness :
  (NodeStructValue._callback_groups Scenario.nodeA = None /\
   eval NodeStructValue.callback_names Scenario.nodeA = Ok None /\
   eval NodeStructValue.callback_group_names Scenario.nodeA = Ok None) /\
  (exists cbs names,
     eval NodeStructValue.callbacks Scenario.nodeAB = Ok (Some cbs) /\
     eval NodeStructValue.callback_names Scenario.nodeAB = Ok (Some names) /\
     length names = length cbs) /\
  (exists names,
     eval NodeStructValue.callback_group_names Scenario.nodeAB
       = Ok (Some names) /\
     length names = 2 /\
     nth_error names 1 = Some "B").
Proof.
  destruct (names_projection Scenario.nodeA) as (Hn & _ & Hg & _).
  destruct (names_projection Scenario.nodeAB) as (_ & Hc & _ & Hgn).
  split; [| split].
  - split; [reflexivity |].
    split; [exact (proj2 Hn eq_refl) | exact (proj2 Hg eq_refl)].
  - destruct (Hc _ eq_refl) as (cbs & names & E1 & E2 & L & _).
    exists cbs, names. auto.
  - destruct (Hgn _ eq_refl) as (names & E & L & N).
    exists names. split; [exact E |]. split; [exact L |].
    exact (N 1 Scenario.groupB eq_refl).
Defined.

Lemma NodeValue_eq_structural_witness :
  NodeValue.py_eq Scenario.id1 Scenario.id2 = Ok true /\
  NodeValue.py_eq Scenario.id1 Scenario.id3 = Ok false /\
  NodeValue.py_eq Scenario.id1 Scenario.id4 = Ok false /\
  NodeValue.py_eq
    {| py_id := 5; py_state := NodeValue.__init__ "alpha" None |}
    {| py_id := 6; py_state := NodeValue.__init__ "beta" None |}
    <> Ok true.
Proof.
  destruct NodeValue_eq_structural as (Hall & Hinit & _).
  split; [| split; [| split]].
  - apply (proj1 (proj2 (Hall Scenario.id1 Scenario.id2))).
    split; reflexivity.
  - apply (proj2 (proj2 (Hall Scenario.id1 Scenario.id3))).
    right. discriminate.
  - apply (proj2 (proj2 (Hall Scenario.id1 Scenario.id4))).
    left. discriminate.
  - intro E. apply (Hinit 5 6 "alpha" "beta" None None) in E.
    destruct E as [E _]. discriminate.
Defined.

(** * Further properties of the read surface *)

(** ** Lists, keys and flattening *)

Lemma in_flatten {A : Type} (x : list (list A)) (c : A) :
  In c (Util.flatten x) <-> exists xs, In xs x /\ In c xs.
Proof.
  induction x as [| ys rest IH]; simpl.
  - split; [intros [] | intros (xs & [] & _)].
  - rewrite in_app_iff, IH. split.
    + intros [Hc | (xs & Hxs & Hc)].
      * exists ys. auto.
      * exists xs. auto.
    + intros (xs & [<- | Hxs] & Hc); [now left |].
      right. exists xs. auto.
Qed.

Lemma flatten_nil_iff {A : Type} (x : list (list A)) :
  Util.flatten x = [] <-> forall xs, In xs x -> xs = [].
Proof.
  induction x as [| ys rest IH]; simpl.
  - split; [intros _ xs [] | reflexivity].
  - split.
    + intro E. apply app_eq_nil in E. destruct E as [-> E].
      intros xs [<- | Hxs]; [reflexivity | now apply IH].
    + intro Hall. rewrite (Hall ys (or_introl eq_refl)). simpl.
      apply IH. intros xs Hxs. apply Hall. now right.
Qed.

(** Some entry has key [v] exactly when [v] is among the keys. *)
Lemma filter_key_nonempty {A : Type} (f : A -> string) (v : string)
    (l : list A) :
  filter (fun x => String.eqb (f x) v) l <> [] <-> In v (map f l).
Proof.
  rewrite in_map_iff. split.
  - intro Hne.
    destruct (filter (fun x => String.eqb (f x) v) l) as [| p r] eqn:Hf;
      [congruence |].
    assert (Hin : In p (filter (fun x => String.eqb (f x) v) l))
      by (rewrite Hf; now left).
    apply filter_In in Hin. destruct Hin as [Hin Hp].
    exists p. split; [now apply String.eqb_eq | exact Hin].
  - intros (p & Hp & Hin) Hnil.
    pose proof (proj1 (filter_nil_iff _ _) Hnil p Hin) as Hfalse.
    simpl in Hfalse. apply String.eqb_neq in Hfalse. contradiction.
Qed.

(** With pairwise distinct keys, an entry is the only one with its key. *)
Lemma filter_unique_key {A : Type} (f : A -> string) (l : list A) :
  NoDup (map f l) ->
  forall p, In p l -> filter (fun x => String.eqb (f x) (f p)) l = [p].
Proof.
  induction l as [| x rest IH]; intros Hnd p Hin.
  - destruct Hin.
  - simpl in Hnd. apply NoDup_cons_iff in Hnd. destruct Hnd as [Hx Hnd].
    simpl. destruct Hin as [<- | Hin].
    + rewrite String.eqb_refl. f_equal.
      apply filter_nil_iff. intros y Hy. apply String.eqb_neq.
      intro E. apply Hx. rewrite <- E. now apply in_map.
    + assert (Hne : String.eqb (f x) (f p) = false).
      { apply String.eqb_neq. intro E. apply Hx. rewrite E.
        now apply in_map. }
      rewrite Hne. now apply IH.
Qed.

(** The first entry with key [v] sits where [v] first occurs among the
    keys. *)
Lemma filter_first_occurrence {A : Type} (f : A -> string) (v : string)
    (l : list A) :
  forall i,
    nth_error (map f l) i = Some v ->
    (forall j, j < i -> nth_error (map f l) j <> Some v) ->
    exists p r,
      nth_error l i = Some p /\
      filter (fun x => String.eqb (f x) v) l = p :: r.
Proof.
  induction l as [| x rest IH]; intros i Hi Hfirst.
  - destruct i; discriminate.
  - destruct i as [| i]; simpl in Hi |- *.
    + injection Hi as Hi. apply String.eqb_eq in Hi. rewrite Hi.
      eexists _, _. split; reflexivity.
    + assert (Hne : String.eqb (f x) v = false).
      { apply String.eqb_neq. intro E.
        apply (Hfirst 0); [lia | simpl; now rewrite E]. }
      rewrite Hne. apply IH; [exact Hi |].
      intros j Hj. apply (Hfirst (S j)). lia.
Qed.

(** ** Lookups, projections and call sequences *)

Section NodeStructValueComposition.

Import NodeStructValue.

Context {PublisherStructValue SubscriptionStructValue NodePathStructValue
         CallbackGroupStructValue CallbackStructValue
         VariablePassingStructValue MessageContext : Type}.
Context `{HasTopicName PublisherStructValue}
        `{HasTopicName SubscriptionStructValue}
        `{HasCallbackName CallbackStructValue}
        `{IsCallbackGroup CallbackGroupStructValue CallbackStructValue}.

Local Abbreviation Self :=
  (NodeStructValue.t PublisherStructValue SubscriptionStructValue
     NodePathStructValue CallbackGroupStructValue
     VariablePassingStructValue MessageContext).

Implicit Types (self : Self) (name : string).

Lemma read_only_call (m : method) : read_only (call m : M Self _).
Proof.
  destruct m as [a | name | name]; simpl.
  - apply read_only_getattr.
  - apply read_only_get_subscription.
  - apply read_only_get_publisher.
Qed.

(** X1: [get_publisher] returns exactly for the names listed by
    [publish_topic_names], and what it returns is an entry of
    [publisher] on the requested topic; [get_subscription] relates in
    the same way to [subscribe_topic_names] and
    [subscription_values]. *)
Theorem lookup_succeeds_iff_topic_listed self name :
  (exists names ps,
     eval publish_topic_names self = Ok names /\
     eval publisher self = Ok ps /\
     ((exists p, eval (get_publisher name) self = Ok p) <-> In name names) /\
     (forall p, eval (get_publisher name) self = Ok p ->
                In p ps /\ topic_name p = name)) /\
  (exists names ss,
     eval subscribe_topic_names self = Ok names /\
     eval subscription_values self = Ok ss /\
     ((exists s, eval (get_subscription name) self = Ok s) <->
      In name names) /\
     (forall s, eval (get_subscription name) self = Ok s ->
                In s ss /\ topic_name s = name)).
Proof.
  split.
  - exists (map topic_name (_publishers self)), (_publishers self).
    split; [reflexivity |]. split; [reflexivity |].
    rewrite eval_get_publisher.
    rewrite <- (filter_key_nonempty topic_name name (_publishers self)).
    destruct (filter _ (_publishers self)) as [| q r] eqn:Hf.
    + split; [| discriminate].
      split; [intros [p E]; discriminate | congruence].
    + split.
      * split; [discriminate | intros _; eexists; reflexivity].
      * intros p E. injection E as <-.
        assert (Hin : In q (filter
                              (fun x => String.eqb (topic_name x) name)
                              (_publishers self)))
          by (rewrite Hf; now left).
        apply filter_In in Hin. destruct Hin as [Hin Hq].
        split; [exact Hin | now apply String.eqb_eq].
  - exists (map topic_name (_subscriptions self)), (_subscriptions self).
    split; [reflexivity |]. split; [reflexivity |].
    rewrite eval_get_subscription.
    rewrite <- (filter_key_nonempty topic_name name (_subscriptions self)).
    destruct (filter _ (_subscriptions self)) as [| q r] eqn:Hf.
    + split; [| discriminate].
      split; [intros [p E]; discriminate | congruence].
    + split.
      * split; [discriminate | intros _; eexists; reflexivity].
      * intros p E. injection E as <-.
        assert (Hin : In q (filter
                              (fun x => String.eqb (topic_name x) name)
                              (_subscriptions self)))
          by (rewrite Hf; now left).
        apply filter_In in Hin. destruct Hin as [Hin Hq].
        split; [exact Hin | now apply String.eqb_eq].
Qed.

(** X2: looking up the topic of an entry of [publisher] never raises
    and returns an entry on that topic; when [publish_topic_names] has
    no duplicate it returns that very entry.  The same holds for
    [subscription_values], [subscribe_topic_names] and
    [get_subscription]. *)
Theorem lookup_of_stored_entry self :
  (exists names ps,
     eval publish_topic_names self = Ok names /\
     eval publisher self = Ok ps /\
     (forall p, In p ps ->
        exists q, eval (get_publisher (topic_name p)) self = Ok q /\
                  topic_name q = topic_name p) /\
     (NoDup names ->
      forall p, In p ps ->
        eval (get_publisher (topic_name p)) self = Ok p)) /\
  (exists names ss,
     eval subscribe_topic_names self = Ok names /\
     eval subscription_values self = Ok ss /\
     (forall s, In s ss ->
        exists q, eval (get_subscription (topic_name s)) self = Ok q /\
                  topic_name q = topic_name s) /\
     (NoDup names ->
      forall s, In s ss ->
        eval (get_subscription (topic_name s)) self = Ok s)).
Proof.
  split.
  - exists (map topic_name (_publishers self)), (_publishers self).
    split; [reflexivity |]. split; [reflexivity |]. split.
    + intros p Hin. rewrite eval_get_publisher.
      destruct (filter _ (_publishers self)) as [| q r] eqn:Hf.
      * exfalso.
        apply (proj2 (filter_key_nonempty topic_name (topic_name p)
                        (_publishers self)));
          [now apply in_map | exact Hf].
      * exists q. split; [reflexivity |].
        assert (Hq : In q (filter
                             (fun x => String.eqb (topic_name x)
                                         (topic_name p))
                             (_publishers self)))
          by (rewrite Hf; now left).
        apply filter_In in Hq. now apply String.eqb_eq.
    + intros Hnd p Hin. rewrite eval_get_publisher.
      rewrite (filter_unique_key topic_name _ Hnd p Hin). reflexivity.
  - exists (map topic_name (_subscriptions self)), (_subscriptions self).
    split; [reflexivity |]. split; [reflexivity |]. split.
    + intros p Hin. rewrite eval_get_subscription.
      destruct (filter _ (_subscriptions self)) as [| q r] eqn:Hf.
      * exfalso.
        apply (proj2 (filter_key_nonempty topic_name (topic_name p)
                        (_subscriptions self)));
          [now apply in_map | exact Hf].
      * exists q. split; [reflexivity |].
        assert (Hq : In q (filter
                             (fun x => String.eqb (topic_name x)
                                         (topic_name p))
                             (_subscriptions self)))
          by (rewrite Hf; now left).
        apply filter_In in Hq. now apply String.eqb_eq.
    + intros Hnd p Hin. rewrite eval_get_subscription.
      rewrite (filter_unique_key topic_name _ Hnd p Hin). reflexivity.
Qed.

(** X3: [get_publisher] returns the entry of [publisher] at the position
    where the requested name first occurs in [publish_topic_names];
    [get_subscription] likewise for [subscription_values] and
    [subscribe_topic_names]. *)
Theorem lookup_at_first_occurrence self name :
  (exists names ps,
     eval publish_topic_names self = Ok names /\
     eval publisher self = Ok ps /\
     forall i,
       nth_error names i = Some name ->
       (forall j, j < i -> nth_error names j <> Some name) ->
       exists p, nth_error ps i = Some p /\
                 eval (get_publisher name) self = Ok p) /\
  (exists names ss,
     eval subscribe_topic_names self = Ok names /\
     eval subscription_values self = Ok ss /\
     forall i,
       nth_error names i = Some name ->
       (forall j, j < i -> nth_error names j <> Some name) ->
       exists s, nth_error ss i = Some s /\
                 eval (get_subscription name) self = Ok s).
Proof.
  split.
  - exists (map topic_name (_publishers self)), (_publishers self).
    split; [reflexivity |]. split; [reflexivity |].
    intros i Hi Hfirst.
    destruct (filter_first_occurrence topic_name name _ i Hi Hfirst)
      as (p & r & Hp & Hf).
    exists p. split; [exact Hp |].
    rewrite eval_get_publisher, Hf. reflexivity.
  - exists (map topic_name (_subscriptions self)), (_subscriptions self).
    split; [reflexivity |]. split; [reflexivity |].
    intros i Hi Hfirst.
    destruct (filter_first_occurrence topic_name name _ i Hi Hfirst)
      as (p & r & Hp & Hf).
    exists p. split; [exact Hp |].
    rewrite eval_get_subscription, Hf. reflexivity.
Qed.

(** X4: the message carried by the exception of a failed lookup tells
    which collection was searched and for which name: the message of a
    failed [get_publisher] is never the message of a failed
    [get_subscription], and the messages of two failed lookups in the
    same kind of collection are equal strings exactly when the
    requested names are equal, whatever the instances. *)
Theorem lookup_error_message_identifies_search (s1 s2 : Self)
    (n1 n2 m1 m2 : string) :
  (eval (get_publisher n1) s1 = Raise (ItemNotFoundError m1) ->
   eval (get_subscription n2) s2 = Raise (ItemNotFoundError m2) ->
   m1 <> m2) /\
  (eval (get_publisher n1) s1 = Raise (ItemNotFoundError m1) ->
   eval (get_publisher n2) s2 = Raise (ItemNotFoundError m2) ->
   (m1 = m2 <-> n1 = n2)) /\
  (eval (get_subscription n1) s1 = Raise (ItemNotFoundError m1) ->
   eval (get_subscription n2) s2 = Raise (ItemNotFoundError m2) ->
   (m1 = m2 <-> n1 = n2)).
Proof.
  rewrite !eval_get_publisher, !eval_get_subscription.
  split; [| split]; intros E1 E2.
  - destruct (filter _ (_publishers s1)); [| discriminate].
    destruct (filter _ (_subscriptions s2)); [| discriminate].
    injection E1 as <-. injection E2 as <-. simpl. intro E. discriminate.
  - destruct (filter _ (_publishers s1)); [| discriminate].
    destruct (filter _ (_publishers s2)); [| discriminate].
    injection E1 as <-. injection E2 as <-. simpl. split.
    + intro E. injection E as E. exact E.
    + intros ->. reflexivity.
  - destruct (filter _ (_subscriptions s1)); [| discriminate].
    destruct (filter _ (_subscriptions s2)); [| discriminate].
    injection E1 as <-. injection E2 as <-. simpl. split.
    + intro E. injection E as E. exact E.
    + intros ->. reflexivity.
Qed.

(** X5: when [callback_groups] is a sequence, [callbacks] holds
    exactly the callbacks of its groups (a callback is in it when some
    group has it), and it is the empty sequence exactly when every group
    is without callbacks. *)
Theorem callbacks_membership self (cbgs : list CallbackGroupStructValue) :
  eval callback_groups self = Ok (Some cbgs) ->
  exists cbs,
    eval callbacks self = Ok (Some cbs) /\
    (forall c, In c cbs <->
               exists g, In g cbgs /\ In c (cbg_callbacks g)) /\
    (cbs = [] <-> forall g, In g cbgs -> cbg_callbacks g = []).
Proof.
  intro E. injection E as E.
  rewrite eval_callbacks, E. simpl.
  eexists. split; [reflexivity |]. split.
  - intro c. rewrite in_flatten. split.
    + intros (xs & Hxs & Hc). apply in_map_iff in Hxs.
      destruct Hxs as (g & <- & Hg). exists g. auto.
    + intros (g & Hg & Hc). exists (cbg_callbacks g).
      split; [now apply in_map | exact Hc].
  - rewrite flatten_nil_iff. split.
    + intros Hall g Hg. apply Hall. now apply in_map.
    + intros Hall xs Hxs. apply in_map_iff in Hxs.
      destruct Hxs as (g & <- & Hg). now apply Hall.
Qed.

(** X6: when [callback_groups] is a sequence, [callback_names] lists
    the callback names group by group: it is as long as all groups'
    callbacks together, the name of callback [j] of group [i] comes
    after the names of all callbacks of earlier groups, and a name is
    listed exactly when a callback of some group bears it. *)
Theorem callback_names_by_group self
    (cbgs : list CallbackGroupStructValue) :
  eval callback_groups self = Ok (Some cbgs) ->
  exists names,
    eval callback_names self = Ok (Some names) /\
    length names
      = list_sum (map (fun g => length (cbg_callbacks g)) cbgs) /\
    (forall i j g c,
       nth_error cbgs i = Some g ->
       nth_error (cbg_callbacks g) j = Some c ->
       nth_error names
         (list_sum (map (fun g => length (cbg_callbacks g))
                      (firstn i cbgs)) + j) = Some (callback_name c)) /\
    (forall n, In n names <->
               exists g c, In g cbgs /\ In c (cbg_callbacks g) /\
                           callback_name c = n).
Proof.
  intro E. injection E as E.
  rewrite eval_callback_names, E. simpl.
  eexists. split; [reflexivity |]. split; [| split].
  - rewrite length_map, flatten_length, map_map. reflexivity.
  - intros i j g c Hi Hj. rewrite nth_error_map.
    rewrite <- (map_map cbg_callbacks (@length _)), <- firstn_map.
    rewrite (flatten_nth_error _ i j (cbg_callbacks g) c);
      [reflexivity | | exact Hj].
    rewrite nth_error_map, Hi. reflexivity.
  - intro n. rewrite in_map_iff. split.
    + intros (c & Hn & Hc). apply in_flatten in Hc.
      destruct Hc as (xs & Hxs & Hc). apply in_map_iff in Hxs.
      destruct Hxs as (g & <- & Hg). exists g, c. auto.
    + intros (g & c & Hg & Hc & Hn). exists c. split; [exact Hn |].
      apply in_flatten. exists (cbg_callbacks g).
      split; [now apply in_map | exact Hc].
Qed.

(** X7: what a call returns or raises does not depend on the calls
    made before it on the same instance, whether they returned or
    raised; and in a body that makes two calls in a row, the second
    call's outcome is that of calling it alone, unless the first call
    raises, which then is the outcome. *)
Theorem call_independent_of_earlier_calls self (m : method) :
  (forall earlier : list method,
     eval (call m) (fold_left (fun s m' => exec (call m') s) earlier self)
     = eval (call m) self) /\
  (forall m0 : method,
     eval (_ <- call m0 ;; call m) self
     = match eval (call m0) self with
       | Ok _ => eval (call m) self
       | Raise e => Raise e
       end).
Proof.
  split.
  - intro earlier. revert self.
    induction earlier as [| m' rest IH]; intro self; simpl.
    + reflexivity.
    + rewrite IH. rewrite (read_only_call m' self). reflexivity.
  - intro m0. pose proof (read_only_call m0 self) as Hro.
    unfold eval, exec, bind in *.
    destruct (call m0 self) as [[v | e] self']; simpl in *; subst self';
      reflexivity.
Qed.

End NodeStructValueComposition.

(** ** The further properties on the scenarios of spec section 8 *)

Lemma lookup_succeeds_iff_topic_listed_witness :
  (exists p, eval (NodeStructValue.get_publisher "/x") Scenario.nodeX = Ok p) /\
  ~ (exists s,
       eval (NodeStructValue.get_subscription "/missing") Scenario.nodeX
         = Ok s).
Proof.
  split.
  - destruct (lookup_succeeds_iff_topic_listed Scenario.nodeX "/x")
      as [(names & ps & En & _ & Hiff & _) _].
    apply (proj2 Hiff). injection En as <-. simpl. auto.
  - destruct (lookup_succeeds_iff_topic_listed Scenario.nodeX "/missing")
      as [_ (names & ss & En & _ & Hiff & _)].
    intro Hs. apply (proj1 Hiff) in Hs. injection En as <-.
    simpl in Hs. destruct Hs as [E | [E | [E | []]]]; discriminate.
Defined.

Lemma lookup_of_stored_entry_witness :
  (NoDup ["/out"; "/x"; "/in"] /\
   eval (NodeStructValue.get_publisher (topic_name Scenario.in0))
     Scenario.nodeU = Ok Scenario.in0 /\
   eval (NodeStructValue.get_publisher (topic_name Scenario.x0))
     Scenario.nodeU = Ok Scenario.x0) /\
  (NoDup ["/in"; "/out"; "/x"] /\
   eval (NodeStructValue.get_subscription (topic_name Scenario.x1))
     Scenario.nodeU = Ok Scenario.x1) /\
  (exists q,
     eval (NodeStructValue.get_publisher (topic_name Scenario.x1))
       Scenario.nodeX = Ok q /\
     topic_name q = "/x") /\
  (exists q,
     eval (NodeStructValue.get_subscription (topic_name Scenario.in0))
       Scenario.nodeX = Ok q /\
     topic_name q = "/in").
Proof.
  assert (Hp : NoDup ["/out"; "/x"; "/in"]).
  { repeat constructor; simpl; intuition discriminate. }
  assert (Hs : NoDup ["/in"; "/out"; "/x"]).
  { repeat constructor; simpl; intuition discriminate. }
  destruct (lookup_of_stored_entry Scenario.nodeU)
    as [(pn & ps & Epn & Eps & _ & Hpu) (sn & ss & Esn & Ess & _ & Hsu)].
  injection Epn as <-. injection Eps as <-.
  injection Esn as <-. injection Ess as <-.
  destruct (lookup_of_stored_entry Scenario.nodeX)
    as [(pn & ps & _ & Eps & Hpa & _) (sn & ss & _ & Ess & Hsa & _)].
  injection Eps as <-. injection Ess as <-.
  split; [| split; [| split]].
  - split; [exact Hp |]. split.
    + apply (Hpu Hp). simpl. auto.
    + apply (Hpu Hp). simpl. auto.
  - split; [exact Hs |]. apply (Hsu Hs). simpl. auto.
  - apply (Hpa Scenario.x1). simpl. auto.
  - apply (Hsa Scenario.in0). simpl. auto.
Defined.

Lemma lookup_at_first_occurrence_witness :
  exists p,
    nth_error (NodeStructValue._publishers Scenario.nodeX) 1 = Some p /\
    eval (NodeStructValue.get_publisher "/x") Scenario.nodeX = Ok p.
Proof.
  destruct (lookup_at_first_occurrence Scenario.nodeX "/x")
    as [(names & ps & En & Ep & Hfirst) _].
  injection En as <-. injection Ep as <-.
  apply Hfirst; [reflexivity |].
  intros j Hj. assert (j = 0) as -> by lia. discriminate.
Defined.

Lemma lookup_error_message_identifies_search_witness :
  (eval (NodeStructValue.get_publisher "/missing") Scenario.nodeA
     = Raise (ItemNotFoundError
                "Failed to find publisher info. topic_name: /missing") /\
   eval (NodeStructValue.get_subscription "/missing") Scenario.nodeX
     = Raise (ItemNotFoundError
                "Failed to find subscription info. topic_name: /missing") /\
   "Failed to find publisher info. topic_name: /missing"
   <> "Failed to find subscription info. topic_name: /missing") /\
  (eval (NodeStructValue.get_publisher "/a") Scenario.nodeA
     = Raise (ItemNotFoundError
                "Failed to find publisher info. topic_name: /a") /\
   eval (NodeStructValue.get_publisher "/b") Scenario.nodeX
     = Raise (ItemNotFoundError
                "Failed to find publisher info. topic_name: /b") /\
   "Failed to find publisher info. topic_name: /a"
   <> "Failed to find publisher info. topic_name: /b") /\
  (eval (NodeStructValue.get_subscription "/a") Scenario.nodeA
     = Raise (ItemNotFoundError
                "Failed to find subscription info. topic_name: /a") /\
   eval (NodeStructValue.get_subscription "/b") Scenario.nodeX
     = Raise (ItemNotFoundError
                "Failed to find subscription info. topic_name: /b") /\
   "Failed to find subscription info. topic_name: /a"
   <> "Failed to find subscription info. topic_name: /b").
Proof.
  assert (Pm : eval (NodeStructValue.get_publisher "/missing") Scenario.nodeA
               = Raise (ItemNotFoundError
                   "Failed to find publisher info. topic_name: /missing"))
    by reflexivity.
  assert (Sm : eval (NodeStructValue.get_subscription "/missing")
                 Scenario.nodeX
               = Raise (ItemNotFoundError
                   "Failed to find subscription info. topic_name: /missing"))
    by reflexivity.
  assert (Pa : eval (NodeStructValue.get_publisher "/a") Scenario.nodeA
               = Raise (ItemNotFoundError
                   "Failed to find publisher info. topic_name: /a"))
    by reflexivity.
  assert (Pb : eval (NodeStructValue.get_publisher "/b") Scenario.nodeX
               = Raise (ItemNotFoundError
                   "Failed to find publisher info. topic_name: /b"))
    by reflexivity.
  assert (Sa : eval (NodeStructValue.get_subscription "/a") Scenario.nodeA
               = Raise (ItemNotFoundError
                   "Failed to find subscription info. topic_name: /a"))
    by reflexivity.
  assert (Sb : eval (NodeStructValue.get_subscription "/b") Scenario.nodeX
               = Raise (ItemNotFoundError
                   "Failed to find subscription info. topic_name: /b"))
    by reflexivity.
  split; [| split].
  - split; [exact Pm |]. split; [exact Sm |].
    exact (proj1 (lookup_error_message_identifies_search
                    Scenario.nodeA Scenario.nodeX "/missing" "/missing"
                    _ _) Pm Sm).
  - split; [exact Pa |]. split; [exact Pb |].
    intro E.
    apply (proj1 (proj2 (lookup_error_message_identifies_search
                           Scenario.nodeA Scenario.nodeX "/a" "/b" _ _))
             Pa Pb) in E.
    discriminate.
  - split; [exact Sa |]. split; [exact Sb |].
    intro E.
    apply (proj2 (proj2 (lookup_error_message_identifies_search
                           Scenario.nodeA Scenario.nodeX "/a" "/b" _ _))
             Sa Sb) in E.
    discriminate.
Defined.

Lemma callbacks_membership_witness :
  eval NodeStructValue.callback_groups Scenario.nodeAB
    = Ok (Some [Scenario.groupA; Scenario.groupB]) /\
  exists cbs,
    eval NodeStructValue.callbacks Scenario.nodeAB = Ok (Some cbs) /\
    In Scenario.c3 cbs /\ cbs <> [].
Proof.
  split; [reflexivity |].
  destruct (callbacks_membership Scenario.nodeAB
              [Scenario.groupA; Scenario.groupB] eq_refl)
    as (cbs & E & Hin & Hnil).
  exists cbs. split; [exact E |]. split.
  - apply Hin. exists Scenario.groupB. simpl. auto.
  - intro Hc. apply (proj1 Hnil) with (g := Scenario.groupB) in Hc.
    + discriminate.
    + simpl. auto.
Defined.

Lemma callback_names_by_group_witness :
  eval NodeStructValue.callback_groups Scenario.nodeAB
    = Ok (Some [Scenario.groupA; Scenario.groupB]) /\
  exists names,
    eval NodeStructValue.callback_names Scenario.nodeAB = Ok (Some names) /\
    length names = 3 /\
    nth_error names 2 = Some "c3".
Proof.
  split; [reflexivity |].
  destruct (callback_names_by_group Scenario.nodeAB
              [Scenario.groupA; Scenario.groupB] eq_refl)
    as (names & E & L & N & _).
  exists names. split; [exact E |]. split; [exact L |].
  exact (N 1 0 Scenario.groupB Scenario.c3 eq_refl eq_refl).
Defined.
